(** * Session registry and admission protocol of [src/http-server.ts]

    A shallow embedding of [setupHttpServer]: the [transports] object, the
    [POST /mcp] handler, [handleSessionRequest] (GET and DELETE on [/mcp]),
    the two callbacks bound to every new transport, the [/health] handler,
    and the handlers bound to the listening socket and to the process signals.

    The HTTP framework, the MCP SDK and the JavaScript built-ins the file
    imports are not part of it; what the handlers use of them is gathered in
    the class [Platform]. *)

From Stdlib Require Import ZArith Ascii String.
From stdpp Require Import base option strings list gmap pretty.

Local Open Scope string_scope.
Local Open Scope Z_scope.

Module HttpServer.

(** ** Imported names *)

(** [isInitializeRequest] comes from [@modelcontextprotocol/sdk/types.js],
    [toISOString] is the method of the built-in [Date]. [Body] is the type of
    [req.body] as [express.json()] leaves it, [Date] the type of [new Date()]. *)
Class Platform := {
  Body : Type;
  isInitializeRequest : Body → bool;
  Date : Type;
  toISOString : Date → string
}.

(** ** JavaScript values met by the handlers *)

(** A transport is a heap object created by
    [new StreamableHTTPServerTransport(...)]; it is named by its address. *)
Definition transport_ref := nat.

(** The own properties [Object.prototype] gives to every object literal
    (ECMA-262 with Annex B). Reading one of them from [{}] yields a function,
    or for [__proto__] the prototype object itself. *)
Definition object_prototype_keys : list string :=
  [ "constructor"; "__defineGetter__"; "__defineSetter__"; "hasOwnProperty";
    "__lookupGetter__"; "__lookupSetter__"; "isPrototypeOf";
    "propertyIsEnumerable"; "toString"; "valueOf"; "__proto__";
    "toLocaleString" ].

(** What [transports[k]] can evaluate to. *)
Inductive js_value :=
  | JsUndefined
  | JsTransport (t : transport_ref)
  | JsInherited (name : string).

(** [o[k]]: the own property when there is one, else the property of that
    name found on the prototype chain of an object literal. *)
Definition js_get (o : gmap string transport_ref) (k : string) : js_value :=
  match o !! k with
  | Some t => JsTransport t
  | None =>
      if bool_decide (k ∈ object_prototype_keys) then JsInherited k
      else JsUndefined
  end.

(** [o[k] = v]. An ordinary key becomes an own property. The key [__proto__]
    reaches the inherited accessor and creates no own property. *)
Definition js_set (o : gmap string transport_ref) (k : string)
    (v : transport_ref) : gmap string transport_ref :=
  if bool_decide (k = "__proto__") then o else <[k:=v]> o.

(** [delete o[k]]: removes an own property, nothing when there is none. *)
Definition js_delete (o : gmap string transport_ref) (k : string)
    : gmap string transport_ref :=
  delete k o.

(** Truthiness of a looked-up value: objects and functions are truthy. *)
Definition truthy (v : js_value) : bool :=
  match v with
  | JsUndefined => false
  | JsTransport _ | JsInherited _ => true
  end.

(** Truthiness of a [string | undefined]: only a non-empty string. *)
Definition truthy_string (s : option string) : bool :=
  match s with
  | Some s => negb (String.eqb s "")
  | None => false
  end.

(** ** Generated session ids *)

(** [randomUUID()] of [node:crypto] returns the 36 characters of an RFC 4122
    identifier: groups of 8, 4, 4, 4 and 12 lower-case hexadecimal digits
    joined by hyphens. [is_uuid] recognises that shape. *)
Definition is_hex_digit (c : ascii) : bool :=
  let n := nat_of_ascii c in
  ((48 <=? n) && (n <=? 57) || (97 <=? n) && (n <=? 102))%nat.

Fixpoint hex_run (n : nat) (s : string) : option string :=
  match n with
  | O => Some s
  | S n' =>
      match s with
      | String c s' => if is_hex_digit c then hex_run n' s' else None
      | EmptyString => None
      end
  end.

Definition hyphen (s : string) : option string :=
  match s with
  | String "-"%char s' => Some s'
  | _ => None
  end.

(** The groups after the first, each behind its hyphen. *)
Fixpoint hyphen_groups (sizes : list nat) (s : string) : option string :=
  match sizes with
  | [] => Some s
  | n :: sizes' =>
      match hyphen s with
      | Some s1 =>
          match hex_run n s1 with
          | Some s2 => hyphen_groups sizes' s2
          | None => None
          end
      | None => None
      end
  end.

Definition is_uuid (s : string) : bool :=
  match hex_run 8 s with
  | Some s' =>
      match hyphen_groups [4; 4; 4; 12]%nat s' with
      | Some EmptyString => true
      | _ => false
      end
  | None => false
  end.






(** ** Responses *)

#[local] Unset Elimination Schemes.
Inductive json :=
  | JNull
  | JNumber (n : Z)
  | JString (s : string)
  | JArray (items : list json)
  | JObject (fields : list (string * json)).
#[local] Set Elimination Schemes.

(** [res.status(c).json(v)] and [res.status(c).send(text)]. *)
Inductive response :=
  | Json (status : Z) (payload : json)
  | Send (status : Z) (text : string).

Inductive js_error :=
  | TypeError          (* [handleRequest] is not a function of the receiver *)
  | ConnectRejected.   (* the promise of [server.connect] rejected *)

(** How a handler ends: it wrote the response itself, it handed the request
    and the response to [transport.handleRequest], or it threw.
    [with_body] tells whether [req.body] was passed as third argument. *)
Inductive outcome :=
  | Responded (r : response)
  | Delegated (t : transport_ref) (with_body : bool)
  | Threw (e : js_error).

(** ** Server state *)

(** [transports] holds the own properties of the registry object; [heap]
    holds, for every transport created so far, its [sessionId] field
    ([None] is [undefined]). *)
Record state := State {
  transports : gmap string transport_ref;
  heap : list (option string)
}.

Definition initial_state : state := State ∅ [].

(** [transport.sessionId] *)
Definition sessionId_of (st : state) (t : transport_ref) : option string :=
  default None (heap st !! t).

(** [transport.handleRequest(req, res[, req.body])] on whatever the lookup
    produced. Only a transport has that method. *)
Definition call_handleRequest (v : js_value) (with_body : bool) : outcome :=
  match v with
  | JsTransport t => Delegated t with_body
  | JsInherited _ | JsUndefined => Threw TypeError
  end.

Section Handlers.
Context `{Platform}.

Record request := Request {
  session_header : option string;   (* [req.headers['mcp-session-id']] *)
  body : Body
}.

(** [transports[sessionId]] for the header value; evaluated only behind a
    truthy [sessionId]. *)
Definition lookup_session (st : state) (sessionId : option string) : js_value :=
  match sessionId with
  | Some s => js_get (transports st) s
  | None => JsUndefined
  end.

Definition rejection_body : json :=
  JObject [ ("jsonrpc", JString "2.0");
            ("error", JObject [ ("code", JNumber (-32000));
                                ("message", JString "錯誤請求：未提供有效的會話 ID") ]);
            ("id", JNull) ].

(** The handler of [app.post('/mcp', ...)]. [connect_rejects] is the fate of
    [await server.connect(transport)]. *)
Definition post_mcp (st : state) (req : request) (connect_rejects : bool)
    : outcome * state :=
  let sessionId := session_header req in
  if truthy_string sessionId && truthy (lookup_session st sessionId) then
    (call_handleRequest (lookup_session st sessionId) true, st)
  else if negb (truthy_string sessionId) && isInitializeRequest (body req) then
    let transport := length (heap st) in
    let st' := State (transports st) (heap st ++ [None]) in
    if connect_rejects then (Threw ConnectRejected, st')
    else (Delegated transport true, st')
  else
    (Responded (Json 400 rejection_body), st).

(** [handleSessionRequest], bound to GET and DELETE on [/mcp]. *)
Definition handleSessionRequest (st : state) (req : request) : outcome * state :=
  let sessionId := session_header req in
  if negb (truthy_string sessionId) || negb (truthy (lookup_session st sessionId)) then
    (Responded (Send 400 "無效或缺少會話 ID"), st)
  else
    (call_handleRequest (lookup_session st sessionId) false, st).

(** The two callbacks bound to the transport created by [post_mcp];
    [transport] is the variable both closures capture. *)
Definition onsessioninitialized (transport : transport_ref)
    (newSessionId : string) (st : state) : state :=
  State (js_set (transports st) newSessionId transport) (heap st).

Definition onclose (transport : transport_ref) (st : state) : state :=
  if truthy_string (sessionId_of st transport) then
    match sessionId_of st transport with
    | Some s => State (js_delete (transports st) s) (heap st)
    | None => st
    end
  else st.

(** *** The health endpoint *)

(** An entry of the arrays returned by [os.networkInterfaces()]. *)
Record interface_info := InterfaceInfo {
  address : string;
  family : string;
  internal : bool
}.

(** What the handler reads from the host: [os.networkInterfaces()] in the
    order of [Object.keys] (a name may map to [undefined]), [os.hostname()]
    and [new Date()]. *)
Record host := Host {
  networkInterfaces : list (string * option (list interface_info));
  hostname : string;
  now : Date
}.

(** The body of the inner [forEach]: one [push] per external IPv4 entry. *)
Definition push_external_ipv4 (addresses : list string) (iface : interface_info)
    : list string :=
  if String.eqb (family iface) "IPv4" && negb (internal iface)
  then addresses ++ [address iface]
  else addresses.

(** The outer [forEach] over [Object.keys(networkInterfaces)]. *)
Definition collect_addresses
    (nis : list (string * option (list interface_info))) : list string :=
  foldl (λ addresses entry,
           match entry.2 with
           | Some interfaces => foldl push_external_ipv4 addresses interfaces
           | None => addresses
           end) [] nis.

(** The handler of [app.get('/health', ...)]; [port] is the parameter of
    [setupHttpServer]. *)
Definition get_health (port : Z) (h : host) : response :=
  let addresses := collect_addresses (networkInterfaces h) in
  Json 200 (JObject [ ("status", JString "ok");
                      ("serverTime", JString (toISOString (now h)));
                      ("networkAddresses", JArray (JString <$> addresses));
                      ("hostname", JString (hostname h));
                      ("port", JNumber port) ]).

(** ** The server as a transition system *)

(** Requests come from clients; the last two events come from the SDK
    transport: it has set its [sessionId] to the id its generator returned and
    calls [onsessioninitialized] with it, or it calls [onclose].

    A request event is the handler's own code, up to the call of
    [transport.handleRequest]. What the transport does inside that awaited
    call, confirming an id while it serves an initialization request or
    closing while it serves a DELETE, is the event that follows the request
    in a run. *)
Inductive event :=
  | PostMcp (req : request) (connect_rejects : bool)
  | GetMcp (req : request)
  | DeleteMcp (req : request)
  | GetHealth (h : host)
  | SessionInitialized (t : transport_ref) (newSessionId : string)
  | TransportClosed (t : transport_ref).

(** The transport stores the id before it calls back. *)
Definition confirm_session (t : transport_ref) (newSessionId : string)
    (st : state) : state :=
  onsessioninitialized t newSessionId
    (State (transports st) (<[t := Some newSessionId]> (heap st))).

Definition handle (port : Z) (st : state) (e : event) : option outcome * state :=
  match e with
  | PostMcp req connect_rejects =>
      let r := post_mcp st req connect_rejects in (Some r.1, r.2)
  | GetMcp req | DeleteMcp req =>
      let r := handleSessionRequest st req in (Some r.1, r.2)
  | GetHealth h => (Some (Responded (get_health port h)), st)
  | SessionInitialized t newSessionId => (None, confirm_session t newSessionId st)
  | TransportClosed t => (None, onclose t st)
  end.

(** What the environment can do in a state: any request; a confirmation only
    for a transport that exists and has no id yet, with an id produced by
    [sessionIdGenerator]; a close only for a transport that exists. *)
Definition enabled (st : state) (e : event) : bool :=
  match e with
  | SessionInitialized t newSessionId =>
      bool_decide (heap st !! t = Some None) && is_uuid newSessionId
  | TransportClosed t => bool_decide (t < length (heap st))%nat
  | _ => true
  end.

Inductive reachable (port : Z) : state → Prop :=
  | reachable_initial : reachable port initial_state
  | reachable_step st e :
      reachable port st → enabled st e = true →
      reachable port (handle port st e).2.



(** ** The admission table, in words

    The three results the POST handler can produce, and two readings of the
    decision table over them: the first follows the wording "header present
    and the registry has an entry / header absent and initialization body /
    anything else", the second tells an empty header value from a proper one. *)
Definition reuse (st : state) (t : transport_ref) : outcome * state :=
  (Delegated t true, st).

Definition create (st : state) (connect_rejects : bool) : outcome * state :=
  (if connect_rejects then Threw ConnectRejected
   else Delegated (length (heap st)) true,
   State (transports st) (heap st ++ [None])).

Definition reject (st : state) : outcome * state :=
  (Responded (Json 400 rejection_body), st).

Definition admission_as_claimed (st : state) (req : request)
    (connect_rejects : bool) : outcome * state :=
  match session_header req with
  | Some s =>
      match transports st !! s with
      | Some t => reuse st t
      | None => reject st
      end
  | None =>
      if isInitializeRequest (body req) then create st connect_rejects
      else reject st
  end.

Definition admission_amended (st : state) (req : request)
    (connect_rejects : bool) : outcome * state :=
  match session_header req with
  | Some (String _ _ as s) =>
      match transports st !! s with
      | Some t => reuse st t
      | None => reject st
      end
  | Some EmptyString | None =>
      if isInitializeRequest (body req) then create st connect_rejects
      else reject st
  end.

(** The requests the rejection is promised for, in the two readings. *)
Definition rejected_as_claimed (st : state) (req : request) : Prop :=
  (∃ s, session_header req = Some s ∧ transports st !! s = None)
  ∨ (session_header req = None ∧ isInitializeRequest (body req) = false).

Definition rejected_amended (st : state) (req : request) : Prop :=
  (∃ s, session_header req = Some s ∧ s ≠ "" ∧ (s ∉ object_prototype_keys)
        ∧ transports st !! s = None)
  ∨ ((session_header req = None ∨ session_header req = Some "")
     ∧ isInitializeRequest (body req) = false).

(** The structured error body with its message left open. *)
Definition structured_error (message : string) : json :=
  JObject [ ("jsonrpc", JString "2.0");
            ("error", JObject [ ("code", JNumber (-32000));
                                ("message", JString message) ]);
            ("id", JNull) ].

(** The addresses the health page is said to list: of every interface, in
    order, those of family IPv4 that are not internal. *)
Definition external_ipv4
    (nis : list (string * option (list interface_info))) : list string :=
  mbind (λ entry,
           match entry.2 with
           | Some interfaces =>
               address <$>
                 filter (λ i, family i = "IPv4" ∧ internal i = false) interfaces
           | None => []
           end) nis.

(** A sequence of events from a state: what each handler answered, and the
    final state. *)
Fixpoint run (port : Z) (st : state) (events : list event)
    : list (option outcome) * state :=
  match events with
  | [] => ([], st)
  | e :: rest =>
      let r := handle port st e in
      let rs := run port r.2 rest in
      (r.1 :: rs.1, rs.2)
  end.

(** Every entry is keyed by a generated id, and that id is the [sessionId]
    of the transport stored under it. *)
Definition registry_ok (st : state) : Prop :=
  ∀ k t, transports st !! k = Some t →
    is_uuid k = true ∧ heap st !! t = Some (Some k).

End Handlers.

(** The ids confirmed so far, one per transport that has one. *)
Definition confirmed_ids (st : state) : list string :=
  omap (λ sessionId, sessionId) (heap st).

(** ** Start-up and shutdown of the process

    What [setupHttpServer] binds to the listening socket and to the process:
    the callback of [app.listen], the handler of the socket's [error] event
    and the handlers of [SIGINT] and [SIGTERM]. A handler is the list of
    effects it performs, in order. *)

(** The [err] handed to the [error] handler; only [err.code] is read. *)
Record listen_error := ListenError { code : option string }.

Inductive signal := SIGINT | SIGTERM.

#[local] Unset Elimination Schemes.
Inductive effect :=
  | ConsoleError (text : string) (attached : option listen_error)
  | ProcessExit (status : Z)
  | HttpServerClose (callback : list effect).
#[local] Set Elimination Schemes.

(** [`${port}`] for an integer port. *)
Definition port_text (port : Z) : string := pretty port.

Definition listen_callback (port : Z) : list effect :=
  [ ConsoleError ("Langfuse Prompts MCP Server running on HTTP port "
                  ++ port_text port) None;
    ConsoleError ("可以通過 http://127.0.0.1:" ++ port_text port
                  ++ "/mcp 或 http://localhost:" ++ port_text port
                  ++ "/mcp 訪問") None ].

Definition on_error (port : Z) (err : listen_error) : list effect :=
  if bool_decide (code err = Some "EADDRINUSE") then
    [ ConsoleError ("錯誤：端口 " ++ port_text port
                    ++ " 已被占用。請嘗試使用不同的端口，例如：--port=3001") None;
      ProcessExit 1 ]
  else
    [ ConsoleError "啟動服務器時發生錯誤：" (Some err);
      ProcessExit 1 ].

Definition shutdown_callback : list effect :=
  [ ConsoleError "服務器已安全關閉" None; ProcessExit 0 ].

Definition on_signal (s : signal) : list effect :=
  match s with
  | SIGINT =>
      [ ConsoleError "收到 SIGINT 信號，正在關閉服務器..." None;
        HttpServerClose shutdown_callback ]
  | SIGTERM =>
      [ ConsoleError "收到 SIGTERM 信號，正在關閉服務器..." None;
        HttpServerClose shutdown_callback ]
  end.

(** The two major versions of Express differ in [app.listen]: both hand the
    callback to [server.listen], which runs it at the first [listening] event;
    version 5 wraps it to run once and registers it for the first [error]
    event of the socket as well, ahead of the handler added by [.on('error')]. *)
Inductive express := Express4 | Express5.

Definition error_runs_callback (framework : express) : bool :=
  match framework with
  | Express5 => true
  | Express4 => false
  end.

(** The process: its exit status once [process.exit] has been called, what
    was written by [console.error], the callbacks handed to
    [httpServer.close] that wait for the socket to close, and whether the
    callback of [app.listen] is still to run. *)
Record process := Process {
  exit_status : option Z;
  console : list (string * option listen_error);
  on_close : list (list effect);
  callback_waiting : bool
}.

Definition started : process := Process None [] [] true.

Definition perform (e : effect) (p : process) : process :=
  match e with
  | ConsoleError text attached =>
      Process (exit_status p) (console p ++ [(text, attached)]) (on_close p)
              (callback_waiting p)
  | ProcessExit status =>
      Process (Some status) (console p) (on_close p) (callback_waiting p)
  | HttpServerClose callback =>
      Process (exit_status p) (console p) (on_close p ++ [callback])
              (callback_waiting p)
  end.

(** Effects run in order; nothing runs after [process.exit]. *)
Fixpoint exec (effects : list effect) (p : process) : process :=
  match effects with
  | [] => p
  | e :: rest =>
      match exit_status p with
      | Some _ => p
      | None => exec rest (perform e p)
      end
  end.

(** The callback of [app.listen], at most once. *)
Definition run_listen_callback (port : Z) (p : process) : process :=
  if callback_waiting p then
    exec (listen_callback port)
         (Process (exit_status p) (console p) (on_close p) false)
  else p.

(** What an effect list writes to the console. *)
Definition console_lines (effects : list effect)
    : list (string * option listen_error) :=
  omap (λ e, match e with
             | ConsoleError text attached => Some (text, attached)
             | _ => None
             end) effects.

Inductive process_event :=
  | Listening
  | SocketError (err : listen_error)
  | Signal (s : signal)
  | ServerClosed.

#[export] Instance listen_error_eq_dec : EqDecision listen_error.
Proof. solve_decision. Defined.

#[export] Instance signal_eq_dec : EqDecision signal.
Proof. solve_decision. Defined.

#[export] Instance process_event_eq_dec : EqDecision process_event.
Proof. solve_decision. Defined.

(** One event of the process. An error of the socket reaches the callback of
    [app.listen] first where the framework registers it, then the [error]
    handler. When the socket has closed, the waiting callbacks run in the
    order they were handed over. *)
Definition process_step (framework : express) (port : Z) (p : process)
    (e : process_event) : process :=
  match exit_status p with
  | Some _ => p
  | None =>
      match e with
      | Listening => run_listen_callback port p
      | SocketError err =>
          exec (on_error port err)
               (if error_runs_callback framework then run_listen_callback port p
                else p)
      | Signal s => exec (on_signal s) p
      | ServerClosed =>
          foldl (λ q callback, exec callback q)
                (Process (exit_status p) (console p) [] (callback_waiting p))
                (on_close p)
      end
  end.

Definition process_run (framework : express) (port : Z)
    (events : list process_event) : process :=
  foldl (process_step framework port) started events.

(** ** A platform to run the handlers on

    Stand-ins for the imported names, used by the examples below: a body is a
    JSON value, an initialization request is an object whose [method] is
    ["initialize"] and whose [params] name a protocol version, capabilities
    and the client, a date is a number of milliseconds since the epoch and
    [toISOString] prints it as [YYYY-MM-DDTHH:mm:ss.sssZ] (years 0 to 9999). *)
Fixpoint json_field (name : string) (fields : list (string * json)) : option json :=
  match fields with
  | [] => None
  | (k, v) :: rest => if String.eqb k name then Some v else json_field name rest
  end.

Definition is_json_string (v : option json) : bool :=
  match v with
  | Some (JString _) => true
  | _ => false
  end.

Definition is_json_object (v : option json) : bool :=
  match v with
  | Some (JObject _) => true
  | _ => false
  end.

(** The name and the version of the client, both strings. *)
Definition sample_isImplementation (v : option json) : bool :=
  match v with
  | Some (JObject fields) =>
      is_json_string (json_field "name" fields)
      && is_json_string (json_field "version" fields)
  | _ => false
  end.

(** The shape the SDK asks of an initialization request: the method
    ["initialize"] and parameters with a protocol version, the capabilities of
    the client and its name and version. *)
Definition sample_isInitializeRequest (b : json) : bool :=
  match b with
  | JObject fields =>
      match json_field "method" fields, json_field "params" fields with
      | Some (JString m), Some (JObject params) =>
          String.eqb m "initialize"
          && is_json_string (json_field "protocolVersion" params)
          && is_json_object (json_field "capabilities" params)
          && sample_isImplementation (json_field "clientInfo" params)
      | _, _ => false
      end
  | _ => false
  end.

Definition digit_char (d : Z) : ascii := ascii_of_nat (48 + Z.to_nat (d mod 10)).

(** The last [width] decimal digits of [n]. *)
Fixpoint digits (width : nat) (n : Z) (suffix : string) : string :=
  match width with
  | O => suffix
  | S w => digits w (n / 10) (String (digit_char n) suffix)
  end.

(** Year, month and day of a day number counted from 1970-01-01, in the
    proleptic Gregorian calendar. *)
Definition civil_from_days (days : Z) : Z * Z * Z :=
  let z := days + 719468 in
  let era := z / 146097 in
  let doe := z mod 146097 in
  let yoe := (doe - doe / 1460 + doe / 36524 - doe / 146096) / 365 in
  let doy := doe - (365 * yoe + yoe / 4 - yoe / 100) in
  let mp := (5 * doy + 2) / 153 in
  let d := doy - (153 * mp + 2) / 5 + 1 in
  let m := if mp <? 10 then mp + 3 else mp - 9 in
  let y := yoe + era * 400 + (if m <=? 2 then 1 else 0) in
  (y, m, d).

Definition sample_toISOString (ms : Z) : string :=
  let '(y, m, d) := civil_from_days (ms / 86400000) in
  let t := ms mod 86400000 in
  digits 4 y ("-" ++ digits 2 m ("-" ++ digits 2 d ("T" ++
  digits 2 (t / 3600000) (":" ++ digits 2 (t / 60000 mod 60) (":" ++
  digits 2 (t / 1000 mod 60) ("." ++ digits 3 (t mod 1000) "Z")))))).

#[export] Instance sample_platform : Platform := {|
  Body := json;
  isInitializeRequest := sample_isInitializeRequest;
  Date := Z;
  toISOString := sample_toISOString
|}.

Definition initialize_body : json :=
  JObject [ ("jsonrpc", JString "2.0"); ("id", JNumber 1);
            ("method", JString "initialize");
            ("params",
             JObject [ ("protocolVersion", JString "2025-03-26");
                       ("capabilities", JObject []);
                       ("clientInfo",
                        JObject [ ("name", JString "sample-client");
                                  ("version", JString "1.0.0") ]) ]) ].

(** The method alone does not make an initialization request. *)
Definition bare_initialize_body : json :=
  JObject [ ("jsonrpc", JString "2.0"); ("id", JNumber 1);
            ("method", JString "initialize") ].

Definition tools_list_body : json :=
  JObject [ ("jsonrpc", JString "2.0"); ("id", JNumber 2);
            ("method", JString "tools/list") ].

Definition sample_uuid : string := "3f2b8c1e-9a47-4d5c-8e21-0b6f7a9c4d13".

Definition other_uuid : string := "a81d4fae-7dec-41d0-a765-00a0c91e6bf6".



(** One client has initialized a session. *)
Definition one_session : state :=
  (handle 3000 (handle 3000 initial_state
                  (PostMcp (Request None initialize_body) false)).2
               (SessionInitialized 0%nat sample_uuid)).2.

(** A second client has posted its initialization; its transport exists and
    has no id yet. *)
Definition one_session_one_pending : state :=
  (handle 3000 one_session (PostMcp (Request None initialize_body) false)).2.

(** The second client has its id as well. *)
Definition two_sessions : state :=
  (handle 3000 one_session_one_pending (SessionInitialized 1%nat other_uuid)).2.


Definition sample_host : host :=
  Host [ ("lo", Some [ InterfaceInfo "127.0.0.1" "IPv4" true;
                       InterfaceInfo "::1" "IPv6" true ]);
         ("eth0", Some [ InterfaceInfo "192.168.1.20" "IPv4" false;
                         InterfaceInfo "fe80::1c2f:9aff:fe01:2b3c" "IPv6" false ]);
         ("tun0", None);
         ("wlan0", Some [ InterfaceInfo "10.0.0.7" "IPv4" false ]) ]
       "mcp-host" 1700000000000.

(** * Properties *)

(** ** Values, truthiness and generated ids *)

Lemma truthy_string_Some (s : string) :
  truthy_string (Some s) = true ↔ s ≠ "".
Proof.
  simpl. destruct (String.eqb_spec s ""); simpl; split; intros; congruence.
Qed.

Lemma truthy_string_true (o : option string) :
  truthy_string o = true ↔ ∃ s, o = Some s ∧ s ≠ "".
Proof.
  destruct o as [s|].
  - rewrite truthy_string_Some. split; [eauto | intros (? & [= <-] & ?); done].
  - simpl. split; [done | intros (? & ? & ?); done].
Qed.

Lemma js_get_own (o : gmap string transport_ref) k t :
  o !! k = Some t → js_get o k = JsTransport t.
Proof. unfold js_get. by intros ->. Qed.

Lemma js_get_inherited (o : gmap string transport_ref) k :
  o !! k = None → k ∈ object_prototype_keys → js_get o k = JsInherited k.
Proof. unfold js_get. intros -> Hk. by rewrite bool_decide_eq_true_2. Qed.

Lemma js_get_undefined (o : gmap string transport_ref) k :
  o !! k = None → k ∉ object_prototype_keys → js_get o k = JsUndefined.
Proof. unfold js_get. intros -> Hk. by rewrite bool_decide_eq_false_2. Qed.

Lemma is_uuid_not_empty k : is_uuid k = true → k ≠ "".
Proof. intros Hk ->. discriminate Hk. Qed.

Lemma is_uuid_not_inherited k : is_uuid k = true → k ∉ object_prototype_keys.
Proof.
  intros Hk Hin. unfold object_prototype_keys in Hin.
  repeat (apply elem_of_cons in Hin as [-> | Hin]; [by vm_compute in Hk |]).
  by apply elem_of_nil in Hin.
Qed.

Lemma is_uuid_not_proto k : is_uuid k = true → k ≠ "__proto__".
Proof. intros Hk ->. by vm_compute in Hk. Qed.

Lemma js_set_ordinary (o : gmap string transport_ref) k v :
  k ≠ "__proto__" → js_set o k v = <[k:=v]> o.
Proof. intros Hk. unfold js_set. by rewrite bool_decide_eq_false_2. Qed.

(** ** Admission on [POST /mcp] *)

Section Admission.
Context `{Platform}.

(** Whatever the branch, the POST handler leaves the registry object alone:
    it returns the state it was given, or that state with one more transport
    on the heap. *)
Lemma post_mcp_state st req connect_rejects :
  (post_mcp st req connect_rejects).2 = st
  ∨ (post_mcp st req connect_rejects).2 = State (transports st) (heap st ++ [None]).
Proof.
  unfold post_mcp.
  destruct (truthy_string _ && truthy _); [by left |].
  destruct (negb _ && isInitializeRequest _); [| by left].
  right. by destruct connect_rejects.
Qed.

Lemma post_mcp_transports st req connect_rejects :
  transports (post_mcp st req connect_rejects).2 = transports st.
Proof. by destruct (post_mcp_state st req connect_rejects) as [-> | ->]. Qed.

(** C1 (as amended). For a POST whose header value is not a name inherited
    from [Object.prototype], the handler follows the table [admission_amended]:
    a non-empty header with a registry entry reuses that transport and
    forwards to it; otherwise an absent or empty header with an initialization
    body creates a transport; anything else is rejected. In every case the
    registry keeps its entries. *)
Theorem post_mcp_admission st req connect_rejects :
  (∀ s, session_header req = Some s → s ∉ object_prototype_keys) →
  post_mcp st req connect_rejects = admission_amended st req connect_rejects
  ∧ transports (post_mcp st req connect_rejects).2 = transports st.
Proof.
  intros Hname. split; [| apply post_mcp_transports].
  unfold post_mcp, admission_amended.
  destruct (session_header req) as [[| c s] |] eqn:Hheader; simpl.
  - by destruct (isInitializeRequest (body req)), connect_rejects.
  - destruct (transports st !! String c s) as [t |] eqn:Hentry.
    + by rewrite (js_get_own _ _ _ Hentry).
    + by rewrite (js_get_undefined _ _ Hentry (Hname _ eq_refl)).
  - by destruct (isInitializeRequest (body req)), connect_rejects.
Qed.

(** C2 (as amended). A POST with a non-empty header that names neither a
    registry entry nor an inherited property, or with an absent or empty
    header and a body that is no initialization request, is answered by
    status 400 and the structured error of code -32000 and null id; the
    handler returns there, nothing is forwarded and the state is untouched. *)
Theorem post_mcp_rejection_response st req connect_rejects :
  rejected_amended st req →
  post_mcp st req connect_rejects =
    (Responded (Json 400 (structured_error "錯誤請求：未提供有效的會話 ID")), st).
Proof.
  unfold post_mcp, rejected_amended.
  intros [(s & -> & Hs & Hname & Hentry) | [[-> | ->] ->]]; simpl; [| done..].
  rewrite (js_get_undefined _ _ Hentry Hname).
  apply String.eqb_neq in Hs. by rewrite Hs.
Qed.

(** The only response the POST handler writes by itself is that error. *)
Lemma post_mcp_responded st req connect_rejects r :
  (post_mcp st req connect_rejects).1 = Responded r →
  post_mcp st req connect_rejects = reject st.
Proof.
  unfold post_mcp, reject.
  destruct (truthy_string _ && truthy _) eqn:Hreuse.
  - apply andb_true_iff in Hreuse as [_ Hv]. simpl.
    by destruct (lookup_session _ _).
  - destruct (negb _ && isInitializeRequest _); [| done].
    by destruct connect_rejects.
Qed.

(** ** Lookup on [GET /mcp] and [DELETE /mcp] *)

(** [handleSessionRequest] never changes the state. *)
Lemma handleSessionRequest_state st req :
  (handleSessionRequest st req).2 = st.
Proof. unfold handleSessionRequest. by destruct (_ || _). Qed.

(** Away from inherited names the handler is the plain lookup: a non-empty
    header with a registry entry delegates to that transport, without a
    parsed body; anything else gets the plain 400. *)
Lemma handleSessionRequest_lookup st req :
  (∀ s, session_header req = Some s → s ∉ object_prototype_keys) →
  handleSessionRequest st req =
    match session_header req with
    | Some (String _ _ as s) =>
        match transports st !! s with
        | Some t => (Delegated t false, st)
        | None => (Responded (Send 400 "無效或缺少會話 ID"), st)
        end
    | _ => (Responded (Send 400 "無效或缺少會話 ID"), st)
    end.
Proof.
  intros Hname. unfold handleSessionRequest.
  destruct (session_header req) as [[| c s] |] eqn:Hheader; simpl; [done | | done].
  destruct (transports st !! String c s) as [t |] eqn:Hentry.
  - by rewrite (js_get_own _ _ _ Hentry).
  - by rewrite (js_get_undefined _ _ Hentry (Hname _ eq_refl)).
Qed.

(** A header that names a property every object inherits passes the guard of
    [handleSessionRequest] although the registry has no such entry, and the
    call of [handleRequest] on the inherited value throws. The same holds in
    the POST handler. *)
Lemma handleSessionRequest_inherited st name b :
  name ∈ object_prototype_keys → transports st !! name = None →
  handleSessionRequest st (Request (Some name) b) = (Threw TypeError, st).
Proof.
  intros Hname Hentry. unfold handleSessionRequest. simpl.
  rewrite (js_get_inherited _ _ Hentry Hname). simpl.
  destruct (String.eqb_spec name "") as [-> | _]; [| done].
  by vm_compute in Hname; repeat (apply elem_of_cons in Hname as [? | Hname]);
    try apply elem_of_nil in Hname.
Qed.

Lemma post_mcp_inherited st name b connect_rejects :
  name ∈ object_prototype_keys → transports st !! name = None →
  post_mcp st (Request (Some name) b) connect_rejects = (Threw TypeError, st).
Proof.
  intros Hname Hentry. unfold post_mcp. simpl.
  rewrite (js_get_inherited _ _ Hentry Hname). simpl.
  destruct (String.eqb_spec name "") as [-> | _]; [| done].
  by vm_compute in Hname; repeat (apply elem_of_cons in Hname as [? | Hname]);
    try apply elem_of_nil in Hname.
Qed.

(** C3. A rejected request leaves the state, and so the registry, exactly as
    it was: a POST the handler answers by itself, and a GET or DELETE whose
    header is missing or names no registry entry. *)
Theorem rejected_requests_keep_registry port st req connect_rejects :
  (∀ r, (post_mcp st req connect_rejects).1 = Responded r →
        (post_mcp st req connect_rejects).2 = st)
  ∧ (session_header req = None
     ∨ (∃ s, session_header req = Some s ∧ transports st !! s = None) →
     (handle port st (GetMcp req)).2 = st
     ∧ (handle port st (DeleteMcp req)).2 = st).
Proof.
  split.
  - intros r Hr. by rewrite (post_mcp_responded _ _ _ _ Hr).
  - intros _. simpl. by rewrite handleSessionRequest_state.
Qed.

(** C9. An empty header value is handled as a missing header by both
    handlers: the POST handler creates a transport for an initialization body
    (and rejects any other body), [handleSessionRequest] answers the plain 400. *)
Theorem empty_header_as_absent st b connect_rejects :
  post_mcp st (Request (Some "") b) connect_rejects
    = post_mcp st (Request None b) connect_rejects
  ∧ handleSessionRequest st (Request (Some "") b)
    = handleSessionRequest st (Request None b)
  ∧ post_mcp st (Request (Some "") b) connect_rejects
    = (if isInitializeRequest b then create st connect_rejects else reject st)
  ∧ handleSessionRequest st (Request (Some "") b)
    = (Responded (Send 400 "無效或缺少會話 ID"), st).
Proof.
  repeat split; try done.
  unfold post_mcp, create, reject. simpl.
  by destruct (isInitializeRequest b), connect_rejects.
Qed.

End Admission.

(** C1, an instance: the follow-up request of an initialized session reaches
    the transport of that session. *)
Lemma post_mcp_admission_witness :
  (∀ s, Some sample_uuid = Some s → s ∉ object_prototype_keys)
  ∧ post_mcp one_session (Request (Some sample_uuid) tools_list_body) false
    = (Delegated 0%nat true, one_session).
Proof.
  assert (Hname : ∀ s, Some sample_uuid = Some s → s ∉ object_prototype_keys).
  { intros s [= <-]. by apply is_uuid_not_inherited. }
  split; [exact Hname |].
  destruct (post_mcp_admission one_session
              (@Request sample_platform (Some sample_uuid) tools_list_body)
              false Hname) as [-> _].
  reflexivity.
Defined.

(** C1 as it is worded fails on an empty header: with an initialization body
    the wording asks for a rejection (the header is not absent, the registry
    has no such entry) and the handler creates a transport. *)
Lemma post_mcp_empty_header_initialize :
  post_mcp initial_state (Request (Some "") initialize_body) false
    = create initial_state false
  ∧ admission_as_claimed initial_state (Request (Some "") initialize_body) false
    = reject initial_state
  ∧ post_mcp initial_state (Request (Some "") initialize_body) false
    ≠ admission_as_claimed initial_state (Request (Some "") initialize_body) false.
Proof. by repeat split. Qed.

(** C2, an instance: an id no session has is refused. *)
Lemma post_mcp_rejection_response_witness :
  rejected_amended one_session (Request (Some other_uuid) tools_list_body)
  ∧ post_mcp one_session (Request (Some other_uuid) tools_list_body) false
    = (Responded (Json 400 (structured_error "錯誤請求：未提供有效的會話 ID")),
       one_session).
Proof.
  assert (Hrej : rejected_amended one_session
                   (Request (Some other_uuid) tools_list_body)).
  { left. exists other_uuid. split_and!; [done | done | | done].
    by apply is_uuid_not_inherited. }
  split; [exact Hrej |].
  exact (post_mcp_rejection_response one_session _ false Hrej).
Defined.

(** C2 as it is worded fails on an empty header: the header is there, the
    registry has no entry under it, and an initialization body is forwarded
    to a new transport instead of being answered by 400. *)
Lemma post_mcp_rejection_empty_header :
  rejected_as_claimed one_session (Request (Some "") initialize_body)
  ∧ post_mcp one_session (Request (Some "") initialize_body) false
    = (Delegated 1%nat true, one_session_one_pending).
Proof.
  split; [| reflexivity].
  left. by exists "".
Qed.

(** C4 at a failing input: a GET or DELETE whose header is [constructor]
    finds the function every object inherits under that name, skips the 400
    and throws when it calls [handleRequest] on it. *)
Theorem handleSessionRequest_constructor :
  handle 3000 one_session (GetMcp (Request (Some "constructor") (JObject [])))
    = (Some (Threw TypeError), one_session)
  ∧ handle 3000 one_session (DeleteMcp (Request (Some "constructor") (JObject [])))
    = (Some (Threw TypeError), one_session)
  ∧ transports one_session !! "constructor" = None.
Proof. by repeat split. Qed.

(** ** Session lifecycle *)

Section Lifecycle.
Context `{Platform}.

Lemma sessionId_of_lookup st t id :
  sessionId_of st t = Some id ↔ heap st !! t = Some (Some id).
Proof.
  unfold sessionId_of. destruct (heap st !! t) as [[?|]|]; simpl; naive_solver.
Qed.

(** What [onclose] does, by the [sessionId] of the closing transport. *)
Lemma onclose_confirmed st t id :
  sessionId_of st t = Some id → id ≠ "" →
  onclose t st = State (delete id (transports st)) (heap st).
Proof.
  intros Hid Hne. unfold onclose. rewrite Hid.
  by rewrite (proj2 (truthy_string_Some id) Hne).
Qed.


(** C8. A transport that closes while its [sessionId] is still undefined
    leaves the whole state, registry included, as it was. *)
Theorem onclose_unconfirmed st t :
  sessionId_of st t = None → onclose t st = st.
Proof. intros Hid. unfold onclose. by rewrite Hid. Qed.

(** The callback stores the transport under the id it is called with. *)
Lemma onsessioninitialized_lookup st t k :
  k ≠ "__proto__" →
  transports (onsessioninitialized t k st) !! k = Some t
  ∧ ∀ k', k' ≠ k →
      transports (onsessioninitialized t k st) !! k' = transports st !! k'.
Proof.
  intros Hk. simpl. rewrite (js_set_ordinary _ _ _ Hk). split.
  - apply lookup_insert_eq.
  - intros k' Hk'. by apply lookup_insert_ne.
Qed.

(** Every event keeps the entries it does not name: an entry found after a
    step and not before was written by the confirmation of that very id. *)
Lemma handle_new_entry port st e k t :
  enabled st e = true →
  transports (handle port st e).2 !! k = Some t →
  transports st !! k ≠ Some t →
  e = SessionInitialized t k ∧ sessionId_of (handle port st e).2 t = Some k.
Proof.
  intros Hen Hafter Hbefore. destruct e as [req cr | req | req | h | t' k' | t'];
    simpl in Hafter.
  - by rewrite post_mcp_transports in Hafter.
  - by rewrite handleSessionRequest_state in Hafter.
  - by rewrite handleSessionRequest_state in Hafter.
  - done.
  - simpl in Hen. apply andb_true_iff in Hen as [Hpending Huuid].
    apply bool_decide_eq_true_1 in Hpending.
    rewrite (js_set_ordinary _ _ _ (is_uuid_not_proto _ Huuid)) in Hafter.
    apply lookup_insert_Some in Hafter as [[<- <-] | [_ ?]]; [| done].
    split; [done |]. apply sessionId_of_lookup. simpl.
    apply list_lookup_insert_eq. by eapply lookup_lt_Some.
  - unfold onclose in Hafter.
    destruct (truthy_string _); [| done].
    destruct (sessionId_of st t'); [| done].
    simpl in Hafter. unfold js_delete in Hafter.
    by apply lookup_delete_Some in Hafter as [_ ?].
Qed.

(** C6. The creation branch of the POST handler writes nothing into the
    registry; an entry appears only in the step in which the transport
    confirms an id, under that id and for that transport; and the callback
    stores its transport under exactly the id it receives. *)
Theorem registry_insert_only_on_confirmation port st :
  (∀ req connect_rejects,
     transports (post_mcp st req connect_rejects).2 = transports st)
  ∧ (∀ e k t,
       enabled st e = true →
       transports (handle port st e).2 !! k = Some t →
       transports st !! k ≠ Some t →
       e = SessionInitialized t k
       ∧ sessionId_of (handle port st e).2 t = Some k)
  ∧ (∀ t k,
       is_uuid k = true →
       transports (onsessioninitialized t k st) !! k = Some t
       ∧ ∀ k', k' ≠ k →
           transports (onsessioninitialized t k st) !! k' = transports st !! k').
Proof.
  split_and!.
  - apply post_mcp_transports.
  - apply handle_new_entry.
  - intros t k Hk. apply onsessioninitialized_lookup. by apply is_uuid_not_proto.
Qed.

(** *** The registry invariant *)

Lemma registry_ok_initial : registry_ok initial_state.
Proof. intros k t Hk. simpl in Hk. by rewrite lookup_empty in Hk. Qed.

Lemma registry_ok_grow st :
  registry_ok st → registry_ok (State (transports st) (heap st ++ [None])).
Proof.
  intros Hok k t Hk. destruct (Hok k t Hk) as [Huuid Hheap].
  split; [done |]. simpl. by apply lookup_app_l_Some.
Qed.

Lemma registry_ok_confirm st t id :
  registry_ok st → heap st !! t = Some None → is_uuid id = true →
  registry_ok (confirm_session t id st).
Proof.
  intros Hok Hpending Huuid k t0. unfold confirm_session. simpl.
  rewrite (js_set_ordinary _ _ _ (is_uuid_not_proto _ Huuid)).
  intros [[<- <-] | [Hne Hk]]%lookup_insert_Some.
  - split; [done |]. apply list_lookup_insert_eq. by eapply lookup_lt_Some.
  - destruct (Hok k t0 Hk) as [Hku Hheap]. split; [done |].
    rewrite list_lookup_insert_ne; [done |]. intros ->. congruence.
Qed.

Lemma registry_ok_close st t : registry_ok st → registry_ok (onclose t st).
Proof.
  intros Hok. unfold onclose.
  destruct (truthy_string _); [| done].
  destruct (sessionId_of st t) as [id |]; [| done].
  intros k t0. simpl. unfold js_delete.
  intros [_ Hk]%lookup_delete_Some. by apply Hok.
Qed.

Lemma registry_ok_step port st e :
  registry_ok st → enabled st e = true → registry_ok (handle port st e).2.
Proof.
  intros Hok Hen. destruct e as [req cr | req | req | h | t id | t]; simpl.
  - destruct (post_mcp_state st req cr) as [-> | ->];
      [done | by apply registry_ok_grow].
  - by rewrite handleSessionRequest_state.
  - by rewrite handleSessionRequest_state.
  - done.
  - simpl in Hen. apply andb_true_iff in Hen as [Hpending Huuid].
    apply bool_decide_eq_true_1 in Hpending. by apply registry_ok_confirm.
  - by apply registry_ok_close.
Qed.

Lemma reachable_registry_ok port st : reachable port st → registry_ok st.
Proof.
  induction 1 as [| st e _ IH Hen]; [apply registry_ok_initial |].
  by apply registry_ok_step.
Qed.

(** *** Generated ids *)











(** ** The health endpoint *)

Lemma push_external_ipv4_foldl interfaces addresses :
  foldl push_external_ipv4 addresses interfaces =
    (addresses ++
      (address <$> filter (λ i, family i = "IPv4" ∧ internal i = false) interfaces))%list.
Proof.
  revert addresses. induction interfaces as [| iface rest IH]; intros addresses.
  - by rewrite app_nil_r.
  - simpl. rewrite IH. unfold push_external_ipv4.
    destruct (String.eqb_spec (family iface) "IPv4") as [Hf | Hf];
      destruct (internal iface) eqn:Hi; simpl.
    + rewrite filter_cons_False; [done | intros [_ ?]; congruence].
    + rewrite filter_cons_True by done.
      by rewrite fmap_cons, <- app_assoc.
    + rewrite filter_cons_False; [done | by intros [? _]].
    + rewrite filter_cons_False; [done | by intros [? _]].
Qed.

Lemma collect_addresses_external_ipv4 nis :
  collect_addresses nis = external_ipv4 nis.
Proof.
  unfold collect_addresses.
  enough (Hgen : ∀ acc,
    foldl (λ addresses entry,
             match entry.2 with
             | Some interfaces => foldl push_external_ipv4 addresses interfaces
             | None => addresses
             end) acc nis
    = (acc ++ external_ipv4 nis)%list) by apply (Hgen []).
  unfold external_ipv4.
  induction nis as [| [ifname interfaces] rest IH]; intros acc.
  - by rewrite app_nil_r.
  - simpl. rewrite IH. destruct interfaces as [interfaces |]; simpl.
    + by rewrite push_external_ipv4_foldl, <- app_assoc.
    + done.
Qed.

(** C10. A GET on [/health] is answered by status 200 and an object of five
    fields: [status], [serverTime] (what [toISOString] returns for the current
    date), [networkAddresses] (the external IPv4 addresses of the host, in
    order), [hostname] and [port]. The state is returned as it was, and the
    answer is the same from any other state. *)
Theorem get_health_response port st h :
  handle port st (GetHealth h) =
    (Some (Responded (Json 200 (JObject
       [ ("status", JString "ok");
         ("serverTime", JString (toISOString (now h)));
         ("networkAddresses",
          JArray (JString <$> external_ipv4 (networkInterfaces h)));
         ("hostname", JString (hostname h));
         ("port", JNumber port) ]))),
     st)
  ∧ ∀ st', (handle port st' (GetHealth h)).1 = (handle port st (GetHealth h)).1.
Proof.
  split; [| done].
  simpl. unfold get_health. by rewrite collect_addresses_external_ipv4.
Qed.

End Lifecycle.

(** ** Instances on the sample platform *)

Lemma one_session_reachable : reachable 3000 one_session.
Proof.
  unfold one_session.
  apply reachable_step; [apply reachable_step; [apply reachable_initial |] |];
    reflexivity.
Qed.






(** C8, an instance: the second transport of [one_session_one_pending]
    closes before it has an id; the first session keeps its entry. *)
Lemma onclose_unconfirmed_witness :
  sessionId_of one_session_one_pending 1%nat = None
  ∧ onclose 1%nat one_session_one_pending = one_session_one_pending.
Proof.
  split; [reflexivity |].
  apply (onclose_unconfirmed one_session_one_pending 1%nat). reflexivity.
Defined.

(** The scenario of the specification: a client initializes, posts a
    follow-up with its id and deletes the session; once the transport has
    closed, a GET with the same id is refused. *)
Example session_scenario :
  run 3000 initial_state
    [ PostMcp (Request None initialize_body) false;
      SessionInitialized 0%nat sample_uuid;
      PostMcp (Request (Some sample_uuid) tools_list_body) false;
      DeleteMcp (Request (Some sample_uuid) (JObject []));
      TransportClosed 0%nat;
      GetMcp (Request (Some sample_uuid) (JObject [])) ]
  = ([ Some (Delegated 0%nat true); None; Some (Delegated 0%nat true);
       Some (Delegated 0%nat false); None;
       Some (Responded (Send 400 "無效或缺少會話 ID")) ],
     State ∅ [Some sample_uuid]).
Proof. reflexivity. Qed.

(** With an empty header, a complete initialization request creates a
    transport; the method alone is refused like any other body. *)
Example empty_header_bodies :
  (post_mcp initial_state (Request (Some "") initialize_body) false).1
    = Delegated 0%nat true
  ∧ post_mcp initial_state (Request (Some "") bare_initialize_body) false
    = reject initial_state.
Proof. by split. Qed.

Example get_health_sample :
  get_health 3000 sample_host =
    Json 200 (JObject
      [ ("status", JString "ok");
        ("serverTime", JString "2023-11-14T22:13:20.000Z");
        ("networkAddresses", JArray [JString "192.168.1.20"; JString "10.0.0.7"]);
        ("hostname", JString "mcp-host");
        ("port", JNumber 3000) ]).
Proof. reflexivity. Qed.

(** * Further properties of the handlers *)

Section Routing.
Context `{Platform}.

(** X1. GET and DELETE on [/mcp] are one and the same lookup. For a header
    that is not an inherited property name: a non-empty value with a registry
    entry hands the request to that entry's transport, without a parsed body;
    every other request gets the plain 400; the state is never changed. *)
Theorem session_request_lookup_only port st req :
  (∀ s, session_header req = Some s → s ∉ object_prototype_keys) →
  handle port st (DeleteMcp req) = handle port st (GetMcp req)
  ∧ handle port st (GetMcp req) =
      (Some match session_header req with
            | Some (String _ _ as s) =>
                match transports st !! s with
                | Some t => Delegated t false
                | None => Responded (Send 400 "無效或缺少會話 ID")
                end
            | _ => Responded (Send 400 "無效或缺少會話 ID")
            end, st).
Proof.
  intros Hname. split; [done |]. simpl.
  rewrite (handleSessionRequest_lookup _ _ Hname).
  destruct (session_header req) as [[| c s] |]; [done | | done].
  by destruct (transports st !! String c s).
Qed.

(** X2. In every state the server can reach, a request whose header is one
    of the names an object literal inherits ([constructor], [toString],
    [__proto__], ...) makes the handler throw a [TypeError]: POST whatever
    its body, GET and DELETE alike. Nothing is answered and the state stays
    as it was. *)
Theorem inherited_name_throws port st name b connect_rejects :
  reachable port st → name ∈ object_prototype_keys →
  handle port st (PostMcp (Request (Some name) b) connect_rejects)
    = (Some (Threw TypeError), st)
  ∧ handle port st (GetMcp (Request (Some name) b)) = (Some (Threw TypeError), st)
  ∧ handle port st (DeleteMcp (Request (Some name) b))
    = (Some (Threw TypeError), st).
Proof.
  intros Hok%reachable_registry_ok Hname.
  assert (Hentry : transports st !! name = None).
  { destruct (transports st !! name) as [t |] eqn:Hk; [| done].
    destruct (Hok _ _ Hk) as [Huuid _].
    by destruct (is_uuid_not_inherited _ Huuid). }
  simpl. rewrite (post_mcp_inherited _ _ _ _ Hname Hentry).
  by rewrite (handleSessionRequest_inherited _ _ _ Hname Hentry).
Qed.

(** X3. No request is delivered to a session other than the one it names.
    In a reachable state, a GET or DELETE that is handed to transport [t]
    carries the id [t] has confirmed; a POST handed to [t] either carries
    that id, or it is an initialization without a usable header and [t] is
    the transport just created for it. *)
Theorem delegation_targets_named_session port st req connect_rejects t with_body :
  reachable port st →
  ((handleSessionRequest st req).1 = Delegated t with_body →
     with_body = false
     ∧ session_header req = sessionId_of st t
     ∧ ∃ k, sessionId_of st t = Some k ∧ transports st !! k = Some t)
  ∧ ((post_mcp st req connect_rejects).1 = Delegated t with_body →
     with_body = true
     ∧ ((session_header req = sessionId_of st t
         ∧ ∃ k, sessionId_of st t = Some k ∧ transports st !! k = Some t)
        ∨ (t = length (heap st)
           ∧ truthy_string (session_header req) = false
           ∧ isInitializeRequest (body req) = true
           ∧ sessionId_of (post_mcp st req connect_rejects).2 t = None))).
Proof.
  intros Hok%reachable_registry_ok.
  assert (Hentry : ∀ o b,
    truthy_string o = true →
    call_handleRequest (lookup_session st o) b = Delegated t with_body →
    b = with_body ∧ o = sessionId_of st t
    ∧ ∃ k, sessionId_of st t = Some k ∧ transports st !! k = Some t).
  { intros [k |] b Ho; [| done]. simpl. unfold js_get.
    destruct (transports st !! k) as [t' |] eqn:Hk;
      [| by destruct (bool_decide _)].
    intros [= -> ->]. destruct (Hok _ _ Hk) as [_ Hheap].
    assert (sessionId_of st t = Some k) as Hid.
    { unfold sessionId_of. by rewrite Hheap. }
    rewrite Hid. eauto. }
  split.
  - unfold handleSessionRequest.
    destruct (truthy_string (session_header req)) eqn:Ho; simpl; [| done].
    destruct (truthy (lookup_session st (session_header req))); simpl; [| done].
    intros Hcall. destruct (Hentry _ _ Ho Hcall) as (<- & ? & ?). eauto.
  - unfold post_mcp.
    destruct (truthy_string (session_header req)) eqn:Ho; simpl.
    + destruct (truthy (lookup_session st (session_header req))); simpl; [| done].
      intros Hcall. destruct (Hentry _ _ Ho Hcall) as (<- & ? & ?). eauto.
    + destruct (isInitializeRequest (body req)) eqn:Hinit; [| done].
      destruct connect_rejects; [done |]. simpl. intros [= <- <-].
      split; [done |]. right. split_and!; try done.
      unfold sessionId_of. simpl. by rewrite lookup_app_r, Nat.sub_diag.
Qed.

(** X4. Sessions do not expire. An entry that is in the registry before an
    event and is not there after it was evicted by the close of a transport
    holding that id, or overwritten by a transport confirming the same id;
    no request and no other session's life cycle removes it. *)
Theorem entry_lost_only_on_close port st e k t :
  transports st !! k = Some t →
  transports (handle port st e).2 !! k ≠ Some t →
  (∃ t', e = TransportClosed t' ∧ sessionId_of st t' = Some k)
  ∨ (∃ t', e = SessionInitialized t' k ∧ t' ≠ t).
Proof.
  intros Hbefore Hafter. destruct e as [req cr | req | req | h | t' k' | t'];
    simpl in Hafter.
  - by rewrite post_mcp_transports in Hafter.
  - by rewrite handleSessionRequest_state in Hafter.
  - by rewrite handleSessionRequest_state in Hafter.
  - done.
  - right. exists t'. unfold js_set in Hafter.
    destruct (bool_decide (k' = "__proto__")); [done |].
    destruct (decide (k' = k)) as [-> | Hne].
    + split; [done |]. intros ->. by rewrite lookup_insert_eq in Hafter.
    + by rewrite lookup_insert_ne in Hafter.
  - left. exists t'. split; [done |]. unfold onclose in Hafter.
    destruct (truthy_string (sessionId_of st t')); [| done].
    destruct (sessionId_of st t') as [id |]; [| done].
    simpl in Hafter. unfold js_delete in Hafter.
    destruct (decide (id = k)) as [-> | Hne]; [done |].
    by rewrite lookup_delete_ne in Hafter.
Qed.

(** X5. Insert and lookup agree. Once [onsessioninitialized] has stored a
    transport under a generated id, a POST with that id in its header is
    forwarded to it with the body, whatever the body is, and a GET or DELETE
    is handed to it as well. *)
Theorem confirmed_session_is_served st t id b connect_rejects :
  is_uuid id = true →
  post_mcp (onsessioninitialized t id st) (Request (Some id) b) connect_rejects
    = (Delegated t true, onsessioninitialized t id st)
  ∧ handleSessionRequest (onsessioninitialized t id st) (Request (Some id) b)
    = (Delegated t false, onsessioninitialized t id st).
Proof.
  intros Huuid.
  pose proof (proj1 (onsessioninitialized_lookup st t id
                       (is_uuid_not_proto _ Huuid))) as Hk.
  pose proof (proj2 (truthy_string_Some id) (is_uuid_not_empty _ Huuid)) as Ht.
  unfold post_mcp, handleSessionRequest.
  cbn [session_header lookup_session]. rewrite Ht, (js_get_own _ _ _ Hk). done.
Qed.

(** X6. A whole life cycle leaves no trace in the registry. When a transport
    confirms an id that had no entry and later closes, the registry is again
    what it was before, and a request with that id gets the rejection of an
    unknown session. *)
Theorem close_after_confirm_restores_registry st t id b connect_rejects :
  (t < length (heap st))%nat → is_uuid id = true → transports st !! id = None →
  transports (onclose t (confirm_session t id st)) = transports st
  ∧ post_mcp (onclose t (confirm_session t id st)) (Request (Some id) b)
      connect_rejects
    = reject (onclose t (confirm_session t id st))
  ∧ (handleSessionRequest (onclose t (confirm_session t id st))
       (Request (Some id) b)).1
    = Responded (Send 400 "無效或缺少會話 ID").
Proof.
  intros Ht Huuid Hfree.
  pose proof (is_uuid_not_empty _ Huuid) as Hne.
  pose proof (is_uuid_not_inherited _ Huuid) as Hname.
  assert (Hid : sessionId_of (confirm_session t id st) t = Some id).
  { unfold sessionId_of, confirm_session. simpl.
    by rewrite list_lookup_insert_eq. }
  rewrite (onclose_confirmed _ _ _ Hid Hne).
  assert (Hreg : delete id (transports (confirm_session t id st)) = transports st).
  { unfold confirm_session. simpl.
    rewrite (js_set_ordinary _ _ _ (is_uuid_not_proto _ Huuid)).
    rewrite delete_insert_eq. by apply delete_id. }
  rewrite Hreg. split; [done |].
  unfold post_mcp, handleSessionRequest, reject.
  cbn [session_header lookup_session transports].
  rewrite (proj2 (truthy_string_Some id) Hne).
  by rewrite (js_get_undefined _ _ Hfree Hname).
Qed.

(** X7. Closing a transport touches nothing but the entry under its own id:
    every other key keeps its entry and every transport keeps its
    [sessionId]. *)
Theorem onclose_keeps_other_sessions st t k :
  sessionId_of st t ≠ Some k →
  transports (onclose t st) !! k = transports st !! k
  ∧ heap (onclose t st) = heap st.
Proof.
  intros Hother. unfold onclose.
  destruct (truthy_string (sessionId_of st t)); [| done].
  destruct (sessionId_of st t) as [id |]; [| done].
  simpl. unfold js_delete. split; [| done].
  apply lookup_delete_ne. congruence.
Qed.

End Routing.

Section Resources.
Context `{Platform}.

Lemma confirmed_ids_length st : (length (confirmed_ids st) ≤ length (heap st))%nat.
Proof.
  unfold confirmed_ids. induction (heap st) as [| [id |] l IH]; csimpl; lia.
Qed.

Lemma confirmed_ids_confirm st t id :
  heap st !! t = Some None →
  length (confirmed_ids (confirm_session t id st)) = S (length (confirmed_ids st)).
Proof.
  intros Hpending. unfold confirmed_ids, confirm_session. simpl.
  rewrite insert_take_drop by (by eapply lookup_lt_Some).
  rewrite <- (take_drop_middle _ _ _ Hpending) at 3.
  rewrite !omap_app. simpl. rewrite !length_app. simpl. lia.
Qed.

(** X8. The registry never holds more entries than there are transports that
    have confirmed an id, and so never more than transports were created. *)
Theorem registry_size_bounded port st :
  reachable port st →
  (size (transports st) ≤ length (confirmed_ids st)
   ∧ length (confirmed_ids st) ≤ length (heap st))%nat.
Proof.
  intros Hreach. split; [| apply confirmed_ids_length].
  induction Hreach as [| st e _ IH Hen]; [done |].
  destruct e as [req cr | req | req | h | t id | t]; simpl.
  - destruct (post_mcp_state st req cr) as [-> | ->]; [done |].
    unfold confirmed_ids in *. simpl. rewrite omap_app. simpl.
    by rewrite app_nil_r.
  - by rewrite handleSessionRequest_state.
  - by rewrite handleSessionRequest_state.
  - done.
  - simpl in Hen. apply andb_true_iff in Hen as [Hpending Huuid].
    apply bool_decide_eq_true_1 in Hpending.
    rewrite (confirmed_ids_confirm _ _ _ Hpending).
    unfold confirm_session. simpl.
    rewrite (js_set_ordinary _ _ _ (is_uuid_not_proto _ Huuid)).
    rewrite map_size_insert. destruct (transports st !! id); simpl; lia.
  - unfold onclose. destruct (truthy_string _); [| done].
    destruct (sessionId_of st t) as [id |]; [| done].
    unfold confirmed_ids in *. simpl. unfold js_delete.
    rewrite map_size_delete. destruct (transports st !! id); simpl; lia.
Qed.

(** ** The address list of the health page *)

(** X9. An address is listed exactly when some interface of the host has an
    entry with that address, of family [IPv4] and not internal. *)
Theorem collect_addresses_elem
    (nis : list (string * option (list interface_info))) (a : string) :
  a ∈ collect_addresses nis ↔
  ∃ ifname interfaces iface,
    (ifname, Some interfaces) ∈ nis ∧ iface ∈ interfaces
    ∧ family iface = "IPv4" ∧ internal iface = false ∧ address iface = a.
Proof.
  rewrite collect_addresses_external_ipv4. unfold external_ipv4.
  rewrite list_elem_of_bind. split.
  - intros ([ifname [interfaces |]] & Ha & Hentry); simpl in Ha;
      [| by apply elem_of_nil in Ha].
    apply list_elem_of_fmap in Ha as (iface & -> & Hiface).
    apply list_elem_of_filter in Hiface as [[Hf Hi] Hiface].
    by exists ifname, interfaces, iface.
  - intros (ifname & interfaces & iface & Hentry & Hiface & Hf & Hi & <-).
    exists (ifname, Some interfaces). split; [| done]. simpl.
    apply list_elem_of_fmap. exists iface. split; [done |].
    by apply list_elem_of_filter.
Qed.

(** X10. The list follows the order of the interfaces and keeps repeated
    addresses: the addresses of two groups of interfaces, one after the other,
    are the addresses of the first followed by those of the second; a name
    without an array adds nothing. *)
Theorem collect_addresses_app
    (nis1 nis2 : list (string * option (list interface_info))) (ifname : string) :
  collect_addresses (nis1 ++ nis2)
    = (collect_addresses nis1 ++ collect_addresses nis2)%list
  ∧ collect_addresses (nis1 ++ (ifname, None) :: nis2)
    = collect_addresses (nis1 ++ nis2).
Proof.
  rewrite !collect_addresses_external_ipv4. unfold external_ipv4.
  by rewrite !bind_app.
Qed.

End Resources.

(** ** Start-up and shutdown *)

Lemma exec_exited effects p status :
  exit_status p = Some status → exec effects p = p.
Proof. intros Hp. destruct effects; simpl; [done | by rewrite Hp]. Qed.

Lemma callbacks_exited (callbacks : list (list effect)) p status :
  exit_status p = Some status →
  foldl (λ q callback, exec callback q) p callbacks = p.
Proof.
  intros Hp. induction callbacks as [| callback rest IH]; simpl; [done |].
  by rewrite (exec_exited _ _ _ Hp).
Qed.

(** When the socket has closed, the first waiting callback ends the process. *)
Lemma callbacks_shutdown (callbacks : list (list effect)) p :
  Forall (λ callback, callback = shutdown_callback) callbacks →
  callbacks ≠ [] → exit_status p = None →
  exit_status (foldl (λ q callback, exec callback q) p callbacks) = Some 0
  ∧ console (foldl (λ q callback, exec callback q) p callbacks)
    = (console p ++ [("服務器已安全關閉", None)])%list.
Proof.
  intros Hall Hne Hp. destruct callbacks as [| callback rest]; [done |].
  apply Forall_cons in Hall as [-> _]. simpl. rewrite Hp. simpl.
  by rewrite (callbacks_exited rest _ 0).
Qed.

Lemma process_run_snoc framework port events e :
  process_run framework port (events ++ [e])
    = process_step framework port (process_run framework port events) e.
Proof. unfold process_run. by rewrite foldl_app. Qed.

Lemma process_step_exited framework port p e status :
  exit_status p = Some status → process_step framework port p e = p.
Proof. intros Hp. unfold process_step. by rewrite Hp. Qed.

(** The callback of [app.listen] writes its two lines when it is still to
    run, and never ends the process. *)
Lemma run_listen_callback_spec port p :
  exit_status p = None →
  exit_status (run_listen_callback port p) = None
  ∧ on_close (run_listen_callback port p) = on_close p
  ∧ callback_waiting (run_listen_callback port p) = false
  ∧ console (run_listen_callback port p)
    = (console p ++ if callback_waiting p
                    then console_lines (listen_callback port) else [])%list.
Proof.
  intros Hp. unfold run_listen_callback.
  destruct (callback_waiting p) eqn:Hw; simpl.
  - rewrite Hp. simpl. by rewrite <- app_assoc.
  - by rewrite app_nil_r.
Qed.

Lemma on_error_spec port err p :
  exit_status p = None →
  exit_status (exec (on_error port err) p) = Some 1
  ∧ console (exec (on_error port err) p)
    = (console p ++ console_lines (on_error port err))%list.
Proof.
  intros Hp. unfold on_error.
  by destruct (bool_decide _); simpl; rewrite Hp.
Qed.

Lemma server_closed_shutdown framework port p :
  exit_status p = None →
  Forall (λ callback, callback = shutdown_callback) (on_close p) →
  on_close p ≠ [] →
  exit_status (process_step framework port p ServerClosed) = Some 0
  ∧ console (process_step framework port p ServerClosed)
    = (console p ++ [("服務器已安全關閉", None)])%list.
Proof.
  intros Hp Hall Hne. unfold process_step. rewrite Hp.
  by apply (callbacks_shutdown (on_close p)
              (Process None (console p) [] (callback_waiting p))).
Qed.

Lemma signal_step framework port p s :
  exit_status p = None →
  exit_status (process_step framework port p (Signal s)) = None
  ∧ length (console (process_step framework port p (Signal s)))
    = S (length (console p))
  ∧ on_close (process_step framework port p (Signal s))
    = (on_close p ++ [shutdown_callback])%list
  ∧ callback_waiting (process_step framework port p (Signal s))
    = callback_waiting p.
Proof.
  intros Hp. unfold process_step. rewrite Hp.
  destruct s; simpl; rewrite Hp; simpl; rewrite length_app; simpl;
    split_and!; try done; lia.
Qed.

Lemma socket_error_step framework port p err :
  exit_status p = None →
  exit_status (process_step framework port p (SocketError err)) = Some 1
  ∧ console (process_step framework port p (SocketError err))
    = (console p
       ++ (if error_runs_callback framework && callback_waiting p
           then console_lines (listen_callback port) else [])
       ++ console_lines (on_error port err))%list.
Proof.
  intros Hp. unfold process_step. rewrite Hp.
  destruct (error_runs_callback framework); simpl.
  - destruct (run_listen_callback_spec port p Hp) as (Hrun & _ & _ & Hlines).
    destruct (on_error_spec port err _ Hrun) as [-> ->].
    by rewrite Hlines, <- app_assoc.
  - by destruct (on_error_spec port err _ Hp) as [-> ->].
Qed.

Lemma listening_step framework port p :
  exit_status p = None →
  exit_status (process_step framework port p Listening) = None
  ∧ on_close (process_step framework port p Listening) = on_close p
  ∧ callback_waiting (process_step framework port p Listening) = false.
Proof.
  intros Hp. unfold process_step. rewrite Hp.
  by destruct (run_listen_callback_spec port p Hp) as (? & ? & ? & _).
Qed.

Lemma not_listening_snoc (events : list process_event) e :
  e ≠ Listening → Listening ∉ (events ++ [e])%list ↔ Listening ∉ events.
Proof.
  intros He. rewrite elem_of_app, list_elem_of_singleton. split.
  - intros Hnot Hin. apply Hnot. by left.
  - intros Hnot [Hin | Heq]; [by apply Hnot | by apply He].
Qed.

(** While the process runs, the callbacks that wait for the socket to close
    are shutdown callbacks, there is one only if a signal has come, and the
    callback of [app.listen] is still to run exactly when the socket has not
    yet reported that it listens. *)
Lemma process_run_waiting framework port events :
  exit_status (process_run framework port events) = None →
  Forall (λ callback, callback = shutdown_callback)
         (on_close (process_run framework port events))
  ∧ (on_close (process_run framework port events) ≠ [] → ∃ s, Signal s ∈ events)
  ∧ (callback_waiting (process_run framework port events) = true
     ↔ Listening ∉ events).
Proof.
  induction events as [| e events IH] using rev_ind.
  { intros _. split_and!; [done | done |]. split; [intros _; apply not_elem_of_nil | done]. }
  rewrite process_run_snoc.
  destruct (exit_status (process_run framework port events))
    as [status |] eqn:Hp.
  { rewrite (process_step_exited _ _ _ _ _ Hp). by rewrite Hp. }
  destruct (IH eq_refl) as (Hall & Hsignal & Hwaiting). destruct e as [| err | s |].
  - destruct (listening_step framework port _ Hp) as (_ & -> & ->). intros _.
    split_and!; [done | |].
    + intros Hne. destruct (Hsignal Hne) as [s Hs]. exists s.
      apply elem_of_app. by left.
    + split; [done |]. intros Hnot. destruct Hnot.
      apply elem_of_app. right. by apply list_elem_of_singleton.
  - by rewrite (proj1 (socket_error_step framework port _ err Hp)).
  - destruct (signal_step framework port _ s Hp) as (_ & _ & -> & ->).
    intros _. split_and!.
    + apply Forall_app. split; [done | by apply Forall_singleton].
    + intros _. exists s. apply elem_of_app. right.
      by apply list_elem_of_singleton.
    + by rewrite Hwaiting, not_listening_snoc.
  - destruct (on_close (process_run framework port events))
      as [| callback rest] eqn:Hcb.
    + unfold process_step. rewrite Hp, Hcb. simpl. intros _.
      split_and!; [done | done |].
      by rewrite Hwaiting, not_listening_snoc.
    + rewrite (proj1 (server_closed_shutdown framework port _ Hp
                        ltac:(by rewrite Hcb) ltac:(by rewrite Hcb))). done.
Qed.

(** X11. The process ends in two ways only. With status 1, by an error of
    the listening socket; with status 0, when the socket has closed after a
    termination signal was received. Whatever follows the ending event has no
    effect. *)
Theorem process_exit_status framework port events status :
  exit_status (process_run framework port events) = Some status →
  ∃ before e after,
    events = (before ++ e :: after)%list
    ∧ exit_status (process_run framework port before) = None
    ∧ process_run framework port events = process_run framework port (before ++ [e])
    ∧ ((status = 1 ∧ ∃ err, e = SocketError err)
       ∨ (status = 0 ∧ e = ServerClosed ∧ ∃ s, Signal s ∈ before)).
Proof.
  induction events as [| e events IH] using rev_ind; [done |].
  rewrite process_run_snoc.
  assert (Hcases :
    (∃ status', exit_status (process_run framework port events) = Some status')
    ∨ exit_status (process_run framework port events) = None)
    by (destruct (exit_status (process_run framework port events)); eauto).
  destruct Hcases as [[status' Hp] | Hp].
  - rewrite (process_step_exited _ _ _ _ _ Hp). intros Hstatus.
    destruct (IH Hstatus) as (before & e' & after & -> & Hrun & Heq & Hcase).
    exists before, e', (after ++ [e])%list.
    by rewrite <- app_assoc.
  - intros Hstatus.
    exists events, e, []. split_and!; [done | done | by rewrite process_run_snoc |].
    destruct (process_run_waiting _ _ _ Hp) as (Hall & Hsignal & _).
    destruct e as [| err | s |].
    + by rewrite (proj1 (listening_step framework port _ Hp)) in Hstatus.
    + left. rewrite (proj1 (socket_error_step framework port _ err Hp)) in Hstatus.
      split; [congruence | by exists err].
    + by rewrite (proj1 (signal_step framework port _ s Hp)) in Hstatus.
    + right. destruct (decide (on_close (process_run framework port events) = []))
        as [Hidle | Hwaiting].
      * unfold process_step in Hstatus. rewrite Hp, Hidle in Hstatus. done.
      * rewrite (proj1 (server_closed_shutdown framework port _ Hp Hall Hwaiting))
          in Hstatus.
        split_and!; [congruence | done | by apply Hsignal].
Qed.

(** X12. While the process runs: an error of the listening socket exits with
    status 1, whatever its code, and the message of the [error] handler is
    what it writes; where the framework hands the error to the callback of
    [app.listen] too (Express 5) and the socket has not listened yet, the two
    lines of that callback come first. A signal writes one message and does
    not end the process by itself; the exit with status 0 comes when the
    socket has closed, after the message of the safe shutdown. *)
Theorem process_running_steps framework port events err s :
  exit_status (process_run framework port events) = None →
  let p := process_run framework port events in
  exit_status (process_step framework port p (SocketError err)) = Some 1
  ∧ console (process_step framework port p (SocketError err))
    = (console p
       ++ (if error_runs_callback framework
              && bool_decide (Listening ∉ events)
           then console_lines (listen_callback port) else [])
       ++ console_lines (on_error port err))%list
  ∧ exit_status (process_step framework port p (Signal s)) = None
  ∧ length (console (process_step framework port p (Signal s)))
    = S (length (console p))
  ∧ exit_status (process_step framework port
                   (process_step framework port p (Signal s)) ServerClosed)
    = Some 0
  ∧ last (console (process_step framework port
                     (process_step framework port p (Signal s)) ServerClosed))
    = Some ("服務器已安全關閉", None).
Proof.
  intros Hp p. destruct (process_run_waiting _ _ _ Hp) as (Hall & _ & Hwaiting).
  fold p in Hp, Hall, Hwaiting.
  destruct (socket_error_step framework port p err Hp) as [Herr Hlines].
  destruct (signal_step framework port p s Hp) as (Hrun & Hlen & Hcb & _).
  assert (Hclosed := server_closed_shutdown framework port _ Hrun).
  rewrite Hcb in Hclosed. destruct Hclosed as [Hexit Hconsole].
  { apply Forall_app. split; [done | by apply Forall_singleton]. }
  { by destruct (on_close p). }
  split_and!; try done.
  - rewrite Hlines. do 3 f_equal.
    destruct (callback_waiting p) eqn:Hw.
    + by rewrite bool_decide_eq_true_2 by (by apply Hwaiting).
    + rewrite bool_decide_eq_false_2; [done |].
      intros Hnot. apply Hwaiting in Hnot. congruence.
  - by rewrite Hconsole, last_snoc.
Qed.

(** ** Instances of the further properties *)

Lemma two_sessions_reachable : reachable 3000 two_sessions.
Proof.
  unfold two_sessions, one_session_one_pending.
  apply reachable_step; [apply reachable_step; [apply one_session_reachable |] |];
    reflexivity.
Qed.

(** X1, an instance: DELETE with the id of the session of [one_session]. *)
Lemma session_request_lookup_only_witness :
  (∀ s, Some sample_uuid = Some s → s ∉ object_prototype_keys)
  ∧ handle 3000 one_session (DeleteMcp (Request (Some sample_uuid) (JObject [])))
    = (Some (Delegated 0%nat false), one_session).
Proof.
  assert (Hname : ∀ s, Some sample_uuid = Some s → s ∉ object_prototype_keys).
  { intros s [= <-]. by apply is_uuid_not_inherited. }
  split; [exact Hname |].
  destruct (session_request_lookup_only 3000 one_session
              (@Request sample_platform (Some sample_uuid) (JObject [])) Hname)
    as [-> ->].
  reflexivity.
Defined.

(** X2, an instance: an initialization request under the header [toString]. *)
Lemma inherited_name_throws_witness :
  reachable 3000 two_sessions
  ∧ "toString" ∈ object_prototype_keys
  ∧ handle 3000 two_sessions
      (PostMcp (Request (Some "toString") initialize_body) false)
    = (Some (Threw TypeError), two_sessions).
Proof.
  assert (Hname : "toString" ∈ object_prototype_keys)
    by (by apply (bool_decide_unpack _)).
  split; [exact two_sessions_reachable |]. split; [exact Hname |].
  exact (proj1 (@inherited_name_throws sample_platform 3000 two_sessions
                  "toString" initialize_body false two_sessions_reachable Hname)).
Defined.

(** X3, an instance: the GET delegated to the second transport of
    [two_sessions] carries that transport's id. *)
Lemma delegation_targets_named_session_witness :
  reachable 3000 two_sessions
  ∧ (handleSessionRequest two_sessions (Request (Some other_uuid) (JObject []))).1
    = Delegated 1%nat false
  ∧ Some other_uuid = sessionId_of two_sessions 1%nat.
Proof.
  split; [exact two_sessions_reachable |]. split; [reflexivity |].
  destruct (delegation_targets_named_session 3000 two_sessions
              (@Request sample_platform (Some other_uuid) (JObject []))
              false 1%nat false two_sessions_reachable) as [Hget _].
  destruct (Hget eq_refl) as (_ & Hheader & _). exact Hheader.
Defined.

(** X4, an instance: the entry of the first session goes when its transport
    closes. *)
Lemma entry_lost_only_on_close_witness :
  transports two_sessions !! sample_uuid = Some 0%nat
  ∧ transports (handle 3000 two_sessions (TransportClosed 0%nat)).2 !! sample_uuid
    = None
  ∧ ((∃ t', @TransportClosed sample_platform 0%nat = TransportClosed t'
            ∧ sessionId_of two_sessions t' = Some sample_uuid)
     ∨ (∃ t', @TransportClosed sample_platform 0%nat
              = SessionInitialized t' sample_uuid ∧ t' ≠ 0%nat)).
Proof.
  split; [reflexivity |]. split; [reflexivity |].
  apply (@entry_lost_only_on_close sample_platform 3000 two_sessions
           (TransportClosed 0%nat) sample_uuid 0%nat); [reflexivity |].
  intros Hlookup. vm_compute in Hlookup. discriminate Hlookup.
Defined.

(** X5, an instance: the callback stores the pending transport of
    [one_session_one_pending], and a follow-up reaches it. *)
Lemma confirmed_session_is_served_witness :
  is_uuid other_uuid = true
  ∧ post_mcp (onsessioninitialized 1%nat other_uuid one_session_one_pending)
      (Request (Some other_uuid) tools_list_body) false
    = (Delegated 1%nat true,
       onsessioninitialized 1%nat other_uuid one_session_one_pending).
Proof.
  split; [reflexivity |].
  exact (proj1 (@confirmed_session_is_served sample_platform
                  one_session_one_pending 1%nat other_uuid tools_list_body false
                  eq_refl)).
Defined.

(** X6, an instance: the second session of [one_session_one_pending] comes
    and goes. *)
Lemma close_after_confirm_restores_registry_witness :
  (1 < length (heap one_session_one_pending))%nat
  ∧ is_uuid other_uuid = true
  ∧ transports one_session_one_pending !! other_uuid = None
  ∧ transports (onclose 1%nat (confirm_session 1%nat other_uuid
                                 one_session_one_pending))
    = transports one_session_one_pending.
Proof.
  assert (Hlen : (1 < length (heap one_session_one_pending))%nat)
    by (vm_compute; lia).
  split; [exact Hlen |]. split; [reflexivity |]. split; [reflexivity |].
  exact (proj1 (@close_after_confirm_restores_registry sample_platform
                  one_session_one_pending 1%nat other_uuid tools_list_body false
                  Hlen eq_refl eq_refl)).
Defined.

(** X7, an instance: the second session of [two_sessions] closes, the first
    keeps its entry. *)
Lemma onclose_keeps_other_sessions_witness :
  sessionId_of two_sessions 1%nat ≠ Some sample_uuid
  ∧ transports (onclose 1%nat two_sessions) !! sample_uuid
    = transports two_sessions !! sample_uuid
  ∧ heap (onclose 1%nat two_sessions) = heap two_sessions.
Proof.
  assert (Hother : sessionId_of two_sessions 1%nat ≠ Some sample_uuid).
  { intros Heq. vm_compute in Heq. discriminate Heq. }
  split; [exact Hother |].
  exact (onclose_keeps_other_sessions two_sessions 1%nat sample_uuid Hother).
Defined.

(** X8, an instance: two entries for two confirmed transports. *)
Lemma registry_size_bounded_witness :
  reachable 3000 two_sessions
  ∧ (size (transports two_sessions) ≤ length (confirmed_ids two_sessions)
     ∧ length (confirmed_ids two_sessions) ≤ length (heap two_sessions))%nat.
Proof.
  split; [exact two_sessions_reachable |].
  exact (@registry_size_bounded sample_platform 3000 two_sessions
           two_sessions_reachable).
Defined.

(** X11, an instance: a shutdown by [SIGTERM]; the late [SIGINT] finds the
    process gone. *)
Lemma process_exit_status_witness :
  exit_status (process_run Express5 3000
                 [Listening; Signal SIGTERM; ServerClosed; Signal SIGINT])
    = Some 0
  ∧ ∃ before e after,
      [Listening; Signal SIGTERM; ServerClosed; Signal SIGINT]
        = (before ++ e :: after)%list
      ∧ exit_status (process_run Express5 3000 before) = None
      ∧ process_run Express5 3000
          [Listening; Signal SIGTERM; ServerClosed; Signal SIGINT]
        = process_run Express5 3000 (before ++ [e])
      ∧ ((0 = 1 ∧ ∃ err, e = SocketError err)
         ∨ (0 = 0 ∧ e = ServerClosed ∧ ∃ s, Signal s ∈ before)).
Proof.
  split; [reflexivity |].
  exact (process_exit_status Express5 3000
           [Listening; Signal SIGTERM; ServerClosed; Signal SIGINT] 0 eq_refl).
Defined.

(** X12, an instance: the port is taken when the server has just started,
    under Express 5; the callback of [app.listen] announces the server before
    the error is reported. *)
Lemma process_running_steps_witness :
  exit_status (process_run Express5 3000 []) = None
  ∧ exit_status (process_step Express5 3000 (process_run Express5 3000 [])
                   (SocketError (ListenError (Some "EADDRINUSE"))))
    = Some 1
  ∧ console (process_step Express5 3000 (process_run Express5 3000 [])
               (SocketError (ListenError (Some "EADDRINUSE"))))
    = [ ("Langfuse Prompts MCP Server running on HTTP port 3000", None);
        ("可以通過 http://127.0.0.1:3000/mcp 或 http://localhost:3000/mcp 訪問", None);
        ("錯誤：端口 3000 已被占用。請嘗試使用不同的端口，例如：--port=3001", None) ].
Proof.
  split; [reflexivity |].
  destruct (process_running_steps Express5 3000 []
              (ListenError (Some "EADDRINUSE")) SIGINT eq_refl)
    as (Hexit & Hconsole & _).
  split; [exact Hexit |]. rewrite Hconsole. reflexivity.
Defined.

Example port_in_use :
  process_run Express4 8080
    [SocketError (ListenError (Some "EADDRINUSE")); Signal SIGINT]
  = Process (Some 1)
      [("錯誤：端口 8080 已被占用。請嘗試使用不同的端口，例如：--port=3001", None)] []
      true.
Proof. reflexivity. Qed.

(** Once the socket listens, an error that comes later is reported alone
    under either version. *)
Example error_after_listening :
  console (process_run Express5 8080
             [Listening; SocketError (ListenError None)])
  = console (process_run Express4 8080
               [Listening; SocketError (ListenError None)]).
Proof. reflexivity. Qed.

End HttpServer.
